(** * StateWithRedux: the Redux state container of the todo application

    A shallow embedding of the two Redux Toolkit slices ([uiSlice],
    [todosSlice]), of the store that combines them, of the two selectors
    used by [PendingTasksCard] and [CompletedTasksCard], and of the
    [handleAdd] handler of [TodosCard].

    JavaScript strings are sequences of UTF-16 code units, modelled as
    [list N]; [Date.now()] yields an integer number of milliseconds,
    modelled as [Z].  Reducers written against an Immer draft are modelled
    as pure functions from the old slice state to the new one.

    The slices are the ones of the screen with the two group-clear
    buttons; [app/index.jsx] has the same slices without [clearPending]
    and [clearCompleted], and the same guard in its two inline add
    handlers. *)

From stdpp Require Import base list gmap sets strings.
From Stdlib Require Import ZArith NArith QArith.

Open Scope N_scope.

(** ** JavaScript strings *)

Abbreviation jsstring := (list N).

(** The code units of an ASCII literal. *)
Definition u16 (s : string) : jsstring :=
  map Ascii.N_of_ascii (String.list_ascii_of_string s).

(** ECMAScript [WhiteSpace] and [LineTerminator] code points, the ones
    [String.prototype.trim] strips.  All of them lie in the basic
    multilingual plane, so the test is per code unit. *)
Definition isWhiteSpace (c : N) : bool :=
  (c =? 0x0009) || (c =? 0x000A) || (c =? 0x000B) || (c =? 0x000C)
  || (c =? 0x000D) || (c =? 0x0020) || (c =? 0x00A0) || (c =? 0x1680)
  || ((0x2000 <=? c) && (c <=? 0x200A))
  || (c =? 0x2028) || (c =? 0x2029) || (c =? 0x202F) || (c =? 0x205F)
  || (c =? 0x3000) || (c =? 0xFEFF).

Fixpoint trimStart (s : jsstring) : jsstring :=
  match s with
  | [] => []
  | c :: rest => if isWhiteSpace c then trimStart rest else s
  end.

Definition trimEnd (s : jsstring) : jsstring :=
  reverse (trimStart (reverse s)).

(** [s.trim()] *)
Definition trim (s : jsstring) : jsstring := trimEnd (trimStart s).

(** Truthiness of a string value: only the empty string is falsy. *)
Definition truthy (s : jsstring) : bool :=
  match s with
  | [] => false
  | _ :: _ => true
  end.

(** ** Data model *)

(** The payload built by [addTodo]'s [prepare]. *)
Record Todo : Type := mkTodo {
  id : jsstring;
  title : jsstring;
  done : bool;
  createdAt : Z
}.

Record UiState : Type := mkUi {
  darkMode : bool;
  showBanner : bool
}.

Record TodosState : Type := mkTodos {
  items : list Todo
}.

Record RootState : Type := mkRoot {
  ui : UiState;
  todos : TodosState
}.

(** What the two impure calls of [prepare] return during one call of the
    action creator: [nanoid()] and [Date.now()]. *)
Record Env : Type := mkEnv {
  nanoid : jsstring;
  Date_now : Z
}.

(** The actions of the two slices; the constructor names follow the action
    types that [createSlice] derives, ["ui/toggleDarkMode"] and so on. *)
Inductive Action : Type :=
  | ui_toggleDarkMode
  | ui_dismissBanner
  | todos_addTodo (payload : Todo)
  | todos_toggleTodo (payload : jsstring)
  | todos_removeTodo (payload : jsstring)
  | todos_clearTodos
  | todos_clearPending
  | todos_clearCompleted.

(** ** The ui slice *)

Module uiSlice.

Definition initialState : UiState :=
  {| darkMode := false; showBanner := true |}.

Definition toggleDarkMode (state : UiState) : UiState :=
  {| darkMode := negb (darkMode state); showBanner := showBanner state |}.

Definition dismissBanner (state : UiState) : UiState :=
  {| darkMode := darkMode state; showBanner := false |}.

(** The slice reducer: an action of another slice leaves the state as
    it is. *)
Definition reducer (state : UiState) (action : Action) : UiState :=
  match action with
  | ui_toggleDarkMode => toggleDarkMode state
  | ui_dismissBanner => dismissBanner state
  | _ => state
  end.

End uiSlice.

(** ** The todos slice *)

Module todosSlice.

Definition initialState : TodosState := {| items := [] |}.

(** [prepare(title)] *)
Definition addTodo_prepare (env : Env) (title : jsstring) : Todo :=
  {| id := nanoid env; title := title; done := false;
     createdAt := Date_now env |}.

(** [state.items.unshift(action.payload)] *)
Definition addTodo_reducer (state : TodosState) (payload : Todo)
  : TodosState :=
  {| items := payload :: items state |}.

(** [t.done = !t.done] *)
Definition flipDone (t : Todo) : Todo :=
  {| id := id t; title := title t; done := negb (done t);
     createdAt := createdAt t |}.

(** [find] yields the first record whose id is the payload, and the
    assignment updates that record where it stands. *)
Definition toggleTodo (state : TodosState) (payload : jsstring)
  : TodosState :=
  match list_find (λ x, id x = payload) (items state) with
  | Some (i, t) => {| items := <[i := flipDone t]> (items state) |}
  | None => state
  end.

Definition removeTodo (state : TodosState) (payload : jsstring)
  : TodosState :=
  {| items := filter (λ x, id x ≠ payload) (items state) |}.

Definition clearTodos (state : TodosState) : TodosState :=
  {| items := [] |}.

Definition clearPending (state : TodosState) : TodosState :=
  {| items := filter (λ item, done item = true) (items state) |}.

Definition clearCompleted (state : TodosState) : TodosState :=
  {| items := filter (λ item, done item = false) (items state) |}.

Definition reducer (state : TodosState) (action : Action) : TodosState :=
  match action with
  | todos_addTodo payload => addTodo_reducer state payload
  | todos_toggleTodo payload => toggleTodo state payload
  | todos_removeTodo payload => removeTodo state payload
  | todos_clearTodos => clearTodos state
  | todos_clearPending => clearPending state
  | todos_clearCompleted => clearCompleted state
  | _ => state
  end.

End todosSlice.

(** ** Action creators *)

Definition toggleDarkMode : Action := ui_toggleDarkMode.
Definition dismissBanner : Action := ui_dismissBanner.
Definition addTodo (env : Env) (title : jsstring) : Action :=
  todos_addTodo (todosSlice.addTodo_prepare env title).
Definition toggleTodo (payload : jsstring) : Action := todos_toggleTodo payload.
Definition removeTodo (payload : jsstring) : Action := todos_removeTodo payload.
Definition clearTodos : Action := todos_clearTodos.
Definition clearPending : Action := todos_clearPending.
Definition clearCompleted : Action := todos_clearCompleted.

(** ** The store *)

(** [configureStore({ reducer: { ui, todos } })]: every action is handed to
    both slice reducers. *)
Definition store_reducer (state : RootState) (action : Action) : RootState :=
  {| ui := uiSlice.reducer (ui state) action;
     todos := todosSlice.reducer (todos state) action |}.

Definition store_initialState : RootState :=
  {| ui := uiSlice.initialState; todos := todosSlice.initialState |}.

Definition dispatch (action : Action) (state : RootState) : RootState :=
  store_reducer state action.

(** The state after a list of actions, dispatched from left to right. *)
Definition dispatchAll (actions : list Action) (state : RootState)
  : RootState :=
  foldl store_reducer state actions.

(** ** Selectors *)

(** [s.todos.items.filter((item) => !item.done)] *)
Definition pendingItems (s : RootState) : list Todo :=
  filter (λ item, done item = false) (items (todos s)).

(** [s.todos.items.filter((item) => item.done)] *)
Definition completedItems (s : RootState) : list Todo :=
  filter (λ item, done item = true) (items (todos s)).

Definition idSet (l : list Todo) : gset jsstring :=
  list_to_set (id <$> l).

(** ** The add handler of [TodosCard] *)

(** [handleAdd] reads the text field, and yields the store state and the
    text field after the call.  The haptic feedback is not part of the
    state. *)
Definition handleAdd (env : Env) (title : jsstring) (s : RootState)
  : RootState * jsstring :=
  if negb (truthy (trim title)) then (s, title)
  else (dispatch (addTodo env (trim title)) s, []).

(** A title made of white space only (the empty title included). *)
Definition blank (s : jsstring) : Prop :=
  Forall (λ c, isWhiteSpace c = true) s.

Definition isDismissBanner (a : Action) : bool :=
  match a with
  | ui_dismissBanner => true
  | _ => false
  end.

(** The ids of the records of the collection, in order. *)
Definition todoIds (s : RootState) : list jsstring :=
  id <$> items (todos s).

(** ** Concrete values used by the examples *)

Definition env1 : Env := {| nanoid := u16 "a1"; Date_now := 1000 |}.
Definition env2 : Env := {| nanoid := u16 "b2"; Date_now := 2000 |}.

(** ** Reachable states *)

(** [nanoid()] is a generator of unique ids: the id it gives to a new
    record is not the id of a record of the collection.  Every other
    action is unconstrained. *)
Definition nanoid_fresh (s : RootState) (a : Action) : Prop :=
  match a with
  | todos_addTodo payload => id payload ∉ todoIds s
  | _ => True
  end.

(** The states the store goes through: the initial state, and the state
    after any action dispatched on a reachable state. *)
Inductive reachable : RootState → Prop :=
  | reachable_init : reachable store_initialState
  | reachable_dispatch s a :
      reachable s → nanoid_fresh s a → reachable (dispatch a s).

(** The state after a list of [addTodo] calls, the first call first; each
    call comes with what [nanoid()] and [Date.now()] return during it, and
    with its title. *)
Definition addAll (calls : list (Env * jsstring)) (s : RootState)
  : RootState :=
  dispatchAll ((λ c, addTodo c.1 c.2) <$> calls) s.

(** The scenario of the examples: two tasks added, the older one toggled. *)
Definition oneTask : RootState :=
  dispatch (addTodo env1 (u16 "Buy milk")) store_initialState.
Definition twoTasks : RootState :=
  dispatch (addTodo env2 (u16 "Walk dog")) oneTask.
Definition milkDone : RootState :=
  dispatch (toggleTodo (u16 "a1")) twoTasks.

(** A state that the store reaches only if [nanoid()] gives the same id
    twice: two records with the id ["a1"], the newer one toggled. *)
Definition repeatedId : RootState :=
  dispatch (toggleTodo (u16 "a1"))
    (dispatch (addTodo env1 (u16 "Walk dog")) oneTask).

(** ** The snackbar and the toggle handler of [AppScaffold] *)

Record Snackbar : Type := mkSnackbar {
  snackbarVisible : bool;
  snackbarMessage : jsstring
}.

(** [useState(false)] and [useState("")] *)
Definition snackbar_initial : Snackbar :=
  {| snackbarVisible := false; snackbarMessage := [] |}.

(** [handleToggle(id, done)]: the cards call it with the [id] and the
    [done] of the record they show.  It yields the store state and the
    snackbar after the call. *)
Definition handleToggle (id0 : jsstring) (done0 : bool) (s : RootState)
  : RootState * Snackbar :=
  (dispatch (toggleTodo id0) s,
   {| snackbarVisible := true;
      snackbarMessage :=
        if done0 then u16 "Task marked undone" else u16 "Task done" |}).

(** ** Layout and the two cards *)

(** The width of the window is a number; a finite one is a rational, and
    its comparison with an integer constant is exact. *)
Definition isTablet (width : Q) : bool := Qle_bool 768 width.

Definition numColumns (width : Q) : nat :=
  if Qle_bool 900 width then 2%nat else 1%nat.

(** What a card renders: the message of the empty case, or the heading
    and the list with its number of columns and its data. *)
Inductive CardView : Type :=
  | EmptyMessage (text : jsstring)
  | TaskList (heading : jsstring) (columns : nat) (data : list Todo).

Definition PendingTasksCard (width : Q) (s : RootState) : CardView :=
  if (length (pendingItems s) =? 0)%nat
  then EmptyMessage (u16 "No pending tasks")
  else TaskList (u16 "Pending Tasks") (numColumns width) (pendingItems s).

Definition CompletedTasksCard (width : Q) (s : RootState) : CardView :=
  if (length (completedItems s) =? 0)%nat
  then EmptyMessage (u16 "No completed tasks")
  else TaskList (u16 "Completed Tasks") (numColumns width) (completedItems s).

(** ** What the screen dispatches *)

(** The [dispatch] calls of the components, each with the condition under
    which its control is on the screen: the switch of [DarkModeSwitch];
    [handleAdd], past its guard; and, in each card, the Clear All button
    (the card renders it only when its list is not empty) and the two
    buttons of a listed record. *)
Inductive uiDispatched (s : RootState) : Action → Prop :=
  | switch_toggleDarkMode : uiDispatched s toggleDarkMode
  | todosCard_add env text :
      truthy (trim text) = true → uiDispatched s (addTodo env (trim text))
  | pending_clear : pendingItems s ≠ [] → uiDispatched s clearPending
  | pending_toggle item :
      item ∈ pendingItems s → uiDispatched s (toggleTodo (id item))
  | pending_remove item :
      item ∈ pendingItems s → uiDispatched s (removeTodo (id item))
  | completed_clear : completedItems s ≠ [] → uiDispatched s clearCompleted
  | completed_toggle item :
      item ∈ completedItems s → uiDispatched s (toggleTodo (id item))
  | completed_remove item :
      item ∈ completedItems s → uiDispatched s (removeTodo (id item)).

(** The states the store goes through when every action comes from the
    screen. *)
Inductive appReachable : RootState → Prop :=
  | appReachable_init : appReachable store_initialState
  | appReachable_dispatch s a :
      appReachable s → uiDispatched s a → nanoid_fresh s a →
      appReachable (dispatch a s).

Definition isToggleDarkMode (a : Action) : bool :=
  match a with
  | ui_toggleDarkMode => true
  | _ => false
  end.

(** A title with no white space at either end. *)
Definition noOuterSpace (s : jsstring) : Prop :=
  (∀ c, head s = Some c → isWhiteSpace c = false) ∧
  (∀ c, last s = Some c → isWhiteSpace c = false).

(** * Properties *)

(** ** Trimming *)

Lemma trimStart_blank (s : jsstring) : blank s → trimStart s = [].
Proof.
  induction 1 as [|c s Hc _ IH]; simpl; [reflexivity|].
  rewrite Hc. exact IH.
Qed.

Lemma trim_blank (s : jsstring) : blank s → trim s = [].
Proof.
  intros H. unfold trim, trimEnd.
  rewrite (trimStart_blank s H). reflexivity.
Qed.

Lemma trimStart_nil_blank (s : jsstring) : trimStart s = [] → blank s.
Proof.
  induction s as [|c s IH]; simpl; intros H.
  - constructor.
  - destruct (isWhiteSpace c) eqn:Hc; [|discriminate].
    constructor; [exact Hc | exact (IH H)].
Qed.

Lemma trimStart_head (s : jsstring) c r :
  trimStart s = c :: r → isWhiteSpace c = false.
Proof.
  induction s as [|d s IH]; simpl; [discriminate|].
  destruct (isWhiteSpace d) eqn:Hd; [exact IH|].
  intros [= <- _]. exact Hd.
Qed.

Lemma trim_nil_blank (s : jsstring) : trim s = [] → blank s.
Proof.
  unfold trim, trimEnd. intros H.
  apply (f_equal reverse) in H. rewrite reverse_involutive in H.
  simpl in H. apply trimStart_nil_blank in H.
  destruct (trimStart s) as [|c r] eqn:E.
  - apply trimStart_nil_blank. exact E.
  - apply trimStart_head in E.
    unfold blank in H. rewrite Forall_reverse in H.
    apply Forall_cons_1 in H as [Hc _]. congruence.
Qed.

Lemma truthy_trim (s : jsstring) : truthy (trim s) = false ↔ blank s.
Proof.
  split.
  - intros H. apply trim_nil_blank.
    destruct (trim s); [reflexivity | discriminate].
  - intros H. rewrite (trim_blank s H). reflexivity.
Qed.

(** ** Slice reducers, one action at a time *)

Lemma dispatch_ui (a : Action) (s : RootState) :
  ui (dispatch a s) = uiSlice.reducer (ui s) a.
Proof. reflexivity. Qed.

Lemma dispatch_todos (a : Action) (s : RootState) :
  todos (dispatch a s) = todosSlice.reducer (todos s) a.
Proof. reflexivity. Qed.

Lemma RootState_eq (s1 s2 : RootState) :
  ui s1 = ui s2 → todos s1 = todos s2 → s1 = s2.
Proof. destruct s1, s2; simpl; intros -> ->; reflexivity. Qed.

Lemma TodosState_eq (t1 t2 : TodosState) : items t1 = items t2 → t1 = t2.
Proof. destruct t1, t2; simpl; intros ->; reflexivity. Qed.

Lemma toggleTodo_absent (st : TodosState) (payload : jsstring) :
  payload ∉ id <$> items st → todosSlice.toggleTodo st payload = st.
Proof.
  intros Hnot. unfold todosSlice.toggleTodo.
  destruct (list_find _ _) as [[i t]|] eqn:E; [|reflexivity].
  apply list_find_Some in E as (Hi & Hid & _).
  exfalso. apply Hnot. apply list_elem_of_fmap. exists t. split; [auto|].
  apply list_elem_of_lookup. eauto.
Qed.

Lemma removeTodo_absent (st : TodosState) (payload : jsstring) :
  payload ∉ id <$> items st → todosSlice.removeTodo st payload = st.
Proof.
  intros Hnot. apply TodosState_eq. simpl.
  induction (items st) as [|x l IH]; [reflexivity|].
  rewrite fmap_cons, not_elem_of_cons in Hnot. destruct Hnot as [Hx Hl].
  rewrite filter_cons_True by congruence. f_equal. exact (IH Hl).
Qed.

(** C1, as stated: the [addTodo] action does not look at the title.  With
    the empty title, dispatched on the initial state, it creates a record
    all the same. *)
Lemma addTodo_blank_title_counterexample :
  blank (u16 "") ∧
  items (todos (dispatch (addTodo env1 (u16 "")) store_initialState))
  = [ {| id := u16 "a1"; title := []; done := false; createdAt := 1000 |} ] ∧
  todos (dispatch (addTodo env1 (u16 "")) store_initialState)
  ≠ todos store_initialState.
Proof. split; [constructor | split; [reflexivity | discriminate]]. Qed.

(** C1, amended: the guard is in [handleAdd].  Called while the text field
    holds an empty or white-space-only title, it dispatches nothing: the
    store state, and with it the task collection, is the one before the
    call, and the text field keeps its content. *)
Theorem handleAdd_blank_unchanged (env : Env) (title : jsstring)
    (s : RootState) :
  blank title → handleAdd env title s = (s, title).
Proof.
  intros H. unfold handleAdd.
  apply truthy_trim in H. rewrite H. reflexivity.
Qed.

Lemma handleAdd_blank_unchanged_witness :
  blank (u16 "   ") ∧
  handleAdd env1 (u16 "   ") (dispatch (addTodo env2 (u16 "Buy milk")) store_initialState)
  = (dispatch (addTodo env2 (u16 "Buy milk")) store_initialState, u16 "   ").
Proof.
  assert (Hb : blank (u16 "   ")) by (repeat constructor).
  split; [exact Hb|].
  exact (handleAdd_blank_unchanged env1 (u16 "   ") _ Hb).
Defined.

(** [handleAdd] on a title that is not blank: the record at the front has
    the trimmed title, and the text field is emptied. *)
Lemma handleAdd_not_blank (env : Env) (title : jsstring) (s : RootState) :
  ¬ blank title →
  handleAdd env title s = (dispatch (addTodo env (trim title)) s, []).
Proof.
  intros H. unfold handleAdd.
  destruct (truthy (trim title)) eqn:E; [reflexivity|].
  apply truthy_trim in E. contradiction.
Qed.

(** C5: an id that no record of the collection has.  [toggleTodo] finds
    nothing and [removeTodo] filters nothing out: the store state after
    either action is the state before it. *)
Theorem toggle_remove_absent_id (s : RootState) (payload : jsstring) :
  payload ∉ todoIds s →
  dispatch (toggleTodo payload) s = s ∧ dispatch (removeTodo payload) s = s.
Proof.
  intros Hnot. split; apply RootState_eq; try reflexivity;
    rewrite dispatch_todos; simpl.
  - apply toggleTodo_absent, Hnot.
  - apply removeTodo_absent, Hnot.
Qed.

Lemma toggle_remove_absent_id_witness :
  (u16 "zz" ∉ todoIds oneTask) ∧
  dispatch (toggleTodo (u16 "zz")) oneTask = oneTask ∧
  dispatch (removeTodo (u16 "zz")) oneTask = oneTask.
Proof.
  assert (H : u16 "zz" ∉ todoIds oneTask).
  { intros H. apply list_elem_of_In in H. vm_compute in H.
    destruct H as [H|[]]. discriminate H. }
  split; [exact H|].
  exact (toggle_remove_absent_id oneTask (u16 "zz") H).
Defined.

(** C9: the two slices do not touch each other.  The two ui actions leave
    the todos slice as it is, and each of the six todos actions leaves
    [darkMode] and [showBanner] as they are. *)
Theorem cross_slice_frame (s : RootState) :
  todos (dispatch toggleDarkMode s) = todos s ∧
  todos (dispatch dismissBanner s) = todos s ∧
  (∀ env title, ui (dispatch (addTodo env title) s) = ui s) ∧
  (∀ payload, ui (dispatch (toggleTodo payload) s) = ui s) ∧
  (∀ payload, ui (dispatch (removeTodo payload) s) = ui s) ∧
  ui (dispatch clearTodos s) = ui s ∧
  ui (dispatch clearPending s) = ui s ∧
  ui (dispatch clearCompleted s) = ui s.
Proof. repeat split. Qed.

Lemma filter_done_not_done (l : list Todo) :
  filter (λ item, done item = false) (filter (λ item, done item = true) l)
  = [].
Proof.
  induction l as [|x l IH]; [reflexivity|].
  destruct (done x) eqn:E.
  - rewrite (filter_cons_True (λ item, done item = true)) by exact E.
    rewrite filter_cons_False by congruence. exact IH.
  - rewrite (filter_cons_False (λ item, done item = true)) by congruence.
    exact IH.
Qed.

Lemma filter_not_done_done (l : list Todo) :
  filter (λ item, done item = true) (filter (λ item, done item = false) l)
  = [].
Proof.
  induction l as [|x l IH]; [reflexivity|].
  destruct (done x) eqn:E.
  - rewrite (filter_cons_False (λ item, done item = false)) by congruence.
    exact IH.
  - rewrite (filter_cons_True (λ item, done item = false)) by exact E.
    rewrite filter_cons_False by congruence. exact IH.
Qed.

Lemma filter_done_idem (l : list Todo) :
  filter (λ item, done item = true) (filter (λ item, done item = true) l)
  = filter (λ item, done item = true) l.
Proof.
  induction l as [|x l IH]; [reflexivity|].
  destruct (done x) eqn:E.
  - rewrite !(filter_cons_True (λ item, done item = true)) by exact E.
    f_equal. exact IH.
  - rewrite (filter_cons_False (λ item, done item = true)) by congruence.
    exact IH.
Qed.

Lemma filter_done_complement (l : list Todo) :
  filter (λ item, done item = true) l ++ filter (λ item, done item = false) l
  ≡ₚ l.
Proof.
  induction l as [|x l IH]; [reflexivity|].
  destruct (done x) eqn:E.
  - rewrite (filter_cons_True (λ item, done item = true)) by exact E.
    rewrite (filter_cons_False (λ item, done item = false)) by congruence.
    simpl. constructor. exact IH.
  - rewrite (filter_cons_False (λ item, done item = true)) by congruence.
    rewrite (filter_cons_True (λ item, done item = false)) by exact E.
    rewrite <- Permutation_middle. constructor. exact IH.
Qed.

(** C10: clearing the pending group and then the completed group, or the
    completed group and then the pending group, leaves the store in the
    state that [clearTodos] gives, whose collection is empty. *)
Theorem clear_groups_is_clearTodos (s : RootState) :
  dispatch clearCompleted (dispatch clearPending s) = dispatch clearTodos s ∧
  dispatch clearPending (dispatch clearCompleted s) = dispatch clearTodos s ∧
  items (todos (dispatch clearTodos s)) = [].
Proof.
  split; [|split; [|reflexivity]];
    apply RootState_eq; try reflexivity;
    apply TodosState_eq; simpl.
  - apply filter_done_not_done.
  - apply filter_not_done_done.
Qed.

(** C7: [clearPending] keeps the records whose [done] is true, and only
    them, in the order they had: the result is a sublist of the collection,
    and with the pending records put back it is the collection again, up
    to order; the pending view of the result is empty and the completed
    view is the one of the state before. *)
Theorem clearPending_spec (s : RootState) :
  (∀ t, t ∈ items (todos (dispatch clearPending s))
        ↔ t ∈ items (todos s) ∧ done t = true) ∧
  sublist (items (todos (dispatch clearPending s))) (items (todos s)) ∧
  items (todos (dispatch clearPending s)) ++ pendingItems s
  ≡ₚ items (todos s) ∧
  pendingItems (dispatch clearPending s) = [] ∧
  completedItems (dispatch clearPending s) = completedItems s.
Proof.
  split; [|split; [|split; [|split]]].
  - intros t. simpl. rewrite list_elem_of_filter. tauto.
  - apply sublist_filter.
  - apply filter_done_complement.
  - apply filter_done_not_done.
  - apply filter_done_idem.
Qed.

(** ** The banner flag *)

Lemma showBanner_step (s : RootState) (a : Action) :
  showBanner (ui (store_reducer s a))
  = showBanner (ui s) && negb (isDismissBanner a).
Proof.
  destruct a; simpl;
    try (symmetry; apply andb_true_r); symmetry; apply andb_false_r.
Qed.

Lemma showBanner_dispatchAll (actions : list Action) (s : RootState) :
  showBanner (ui (dispatchAll actions s))
  = showBanner (ui s) && forallb (λ a, negb (isDismissBanner a)) actions.
Proof.
  unfold dispatchAll. revert s.
  induction actions as [|a actions IH]; intros s; simpl.
  - symmetry. apply andb_true_r.
  - rewrite IH, showBanner_step, andb_assoc. reflexivity.
Qed.

(** C8: [dismissBanner] sets [showBanner] to false whatever it was, and a
    second [dismissBanner] changes nothing; after any list of actions the
    flag is true exactly when it was true before and the list holds no
    [dismissBanner]; so, from the initial state, once the flag is false it
    is false after every further list of actions. *)
Theorem showBanner_only_falls :
  (∀ s, showBanner (ui (dispatch dismissBanner s)) = false) ∧
  (∀ s, dispatch dismissBanner (dispatch dismissBanner s)
        = dispatch dismissBanner s) ∧
  (∀ actions s,
      showBanner (ui (dispatchAll actions s))
      = showBanner (ui s) && forallb (λ a, negb (isDismissBanner a)) actions) ∧
  (∀ before after,
      showBanner (ui (dispatchAll before store_initialState)) = false →
      showBanner (ui (dispatchAll (before ++ after) store_initialState))
      = false).
Proof.
  split; [reflexivity|]. split; [reflexivity|].
  split; [exact showBanner_dispatchAll|].
  intros before after H.
  unfold dispatchAll. rewrite foldl_app.
  change (showBanner (ui (dispatchAll after
            (dispatchAll before store_initialState))) = false).
  rewrite showBanner_dispatchAll, H. reflexivity.
Qed.

(** ** Toggling *)

Lemma flipDone_involutive (t : Todo) :
  todosSlice.flipDone (todosSlice.flipDone t) = t.
Proof. destruct t as [i ti d c]. unfold todosSlice.flipDone. simpl.
  rewrite negb_involutive. reflexivity. Qed.

Lemma toggleTodo_found (st : TodosState) (payload : jsstring) i t :
  list_find (λ x, id x = payload) (items st) = Some (i, t) →
  list_find (λ x, id x = payload) (<[i := todosSlice.flipDone t]> (items st))
  = Some (i, todosSlice.flipDone t).
Proof.
  intros E. apply list_find_Some in E as (Hi & Hid & Hfirst).
  apply list_find_Some. split; [|split].
  - apply list_lookup_insert_eq. eapply lookup_lt_Some, Hi.
  - exact Hid.
  - intros j y Hj Hlt. rewrite list_lookup_insert_ne in Hj by lia.
    eapply Hfirst; eauto.
Qed.

Lemma toggleTodo_involutive (st : TodosState) (payload : jsstring) :
  todosSlice.toggleTodo (todosSlice.toggleTodo st payload) payload = st.
Proof.
  unfold todosSlice.toggleTodo at 2.
  destruct (list_find _ (items st)) as [[i t]|] eqn:E.
  - unfold todosSlice.toggleTodo. simpl.
    rewrite (toggleTodo_found st payload i t E).
    apply TodosState_eq. simpl.
    rewrite list_insert_insert_eq, flipDone_involutive.
    apply list_insert_id. apply list_find_Some in E. apply E.
  - unfold todosSlice.toggleTodo. rewrite E. reflexivity.
Qed.

(** C4: [toggleTodo] dispatched twice with the same id gives back the
    state before the two calls, so the [done] flag of every record, the
    toggled one included, has its first value again. *)
Theorem toggleTodo_twice (s : RootState) (payload : jsstring) :
  dispatch (toggleTodo payload) (dispatch (toggleTodo payload) s) = s.
Proof.
  apply RootState_eq; [reflexivity|].
  rewrite !dispatch_todos. simpl. apply toggleTodo_involutive.
Qed.

(** C3: when some record has the id, [toggleTodo] changes one record, the
    first one with that id: at its index the result holds the record with
    [done] negated and [id], [title] and [createdAt] as before; the
    collection keeps its length, every other index holds what it held, and
    the ui slice is as before. *)
Theorem toggleTodo_spec (s : RootState) (payload : jsstring) :
  payload ∈ todoIds s →
  ∃ (k : nat) (t : Todo),
    items (todos s) !! k = Some t ∧
    id t = payload ∧
    (∀ j u, (j < k)%nat → items (todos s) !! j = Some u → id u ≠ payload) ∧
    items (todos (dispatch (toggleTodo payload) s)) !! k
    = Some {| id := id t; title := title t; done := negb (done t);
              createdAt := createdAt t |} ∧
    length (items (todos (dispatch (toggleTodo payload) s)))
    = length (items (todos s)) ∧
    (∀ j, j ≠ k →
       items (todos (dispatch (toggleTodo payload) s)) !! j
       = items (todos s) !! j) ∧
    ui (dispatch (toggleTodo payload) s) = ui s.
Proof.
  intros Hin. unfold todoIds in Hin.
  apply list_elem_of_fmap in Hin as (x & Hx & Hxin).
  destruct (list_find_elem_of (λ y, id y = payload) (items (todos s)) x Hxin)
    as [[k t] E]; [congruence|].
  exists k, t.
  rewrite dispatch_todos. simpl. unfold todosSlice.toggleTodo. rewrite E.
  apply list_find_Some in E as (Hk & Hid & Hfirst). simpl.
  split; [exact Hk|]. split; [exact Hid|].
  split; [intros j u Hlt Hj; exact (Hfirst j u Hj Hlt)|].
  split; [apply list_lookup_insert_eq; eapply lookup_lt_Some, Hk|].
  split; [apply length_insert|].
  split; [intros j Hj; apply list_lookup_insert_ne; congruence|].
  reflexivity.
Qed.

Lemma toggleTodo_spec_witness :
  (u16 "a1" ∈ todoIds twoTasks) ∧
  ∃ (k : nat) (t : Todo),
    items (todos twoTasks) !! k = Some t ∧
    id t = u16 "a1" ∧
    (∀ j u, (j < k)%nat → items (todos twoTasks) !! j = Some u →
            id u ≠ u16 "a1") ∧
    items (todos (dispatch (toggleTodo (u16 "a1")) twoTasks)) !! k
    = Some {| id := id t; title := title t; done := negb (done t);
              createdAt := createdAt t |} ∧
    length (items (todos (dispatch (toggleTodo (u16 "a1")) twoTasks)))
    = length (items (todos twoTasks)) ∧
    (∀ j, j ≠ k →
       items (todos (dispatch (toggleTodo (u16 "a1")) twoTasks)) !! j
       = items (todos twoTasks) !! j) ∧
    ui (dispatch (toggleTodo (u16 "a1")) twoTasks) = ui twoTasks.
Proof.
  assert (H : u16 "a1" ∈ todoIds twoTasks).
  { apply list_elem_of_In. vm_compute. right. left. reflexivity. }
  split; [exact H|].
  exact (toggleTodo_spec twoTasks (u16 "a1") H).
Defined.

(** The scenario of the specification: newest first, then the toggled
    task moves from the pending view to the completed view. *)
Example scenario_views :
  (title <$> items (todos twoTasks)) = [u16 "Walk dog"; u16 "Buy milk"] ∧
  (title <$> pendingItems milkDone) = [u16 "Walk dog"] ∧
  (title <$> completedItems milkDone) = [u16 "Buy milk"] ∧
  completedItems (dispatch clearCompleted milkDone) = [] ∧
  pendingItems (dispatch clearCompleted milkDone) = pendingItems milkDone.
Proof. vm_compute. repeat split. Qed.

(** ** Adding *)

Lemma addAll_snoc (calls : list (Env * jsstring)) c (s : RootState) :
  addAll (calls ++ [c]) s = dispatch (addTodo c.1 c.2) (addAll calls s).
Proof.
  unfold addAll, dispatchAll. rewrite fmap_app, foldl_app. reflexivity.
Qed.

Lemma addAll_items (calls : list (Env * jsstring)) (s : RootState) :
  items (todos (addAll calls s))
  = reverse ((λ c, todosSlice.addTodo_prepare c.1 c.2) <$> calls)
    ++ items (todos s).
Proof.
  induction calls as [|c calls IH] using rev_ind; [reflexivity|].
  rewrite addAll_snoc, fmap_app, reverse_app. simpl.
  rewrite <- IH. reflexivity.
Qed.

(** C6: a list of [addTodo] calls, whatever the titles and so for titles
    that are not empty, from any state.  The collection is the new records,
    the newest first, in front of the old collection; its length is the old
    length plus the number of calls; and right after each call, that is
    after any calls [earlier] and one more, the record just created, with
    [done] false, is at index 0. *)
Theorem addTodo_sequence (calls : list (Env * jsstring)) (s : RootState) :
  items (todos (addAll calls s))
  = reverse ((λ c, todosSlice.addTodo_prepare c.1 c.2) <$> calls)
    ++ items (todos s) ∧
  length (items (todos (addAll calls s)))
  = (length (items (todos s)) + length calls)%nat ∧
  (∀ earlier env title,
     items (todos (addAll (earlier ++ [(env, title)]) s)) !! 0%nat
     = Some {| id := nanoid env; title := title; done := false;
               createdAt := Date_now env |}).
Proof.
  split; [apply addAll_items|]. split.
  - rewrite addAll_items, length_app, length_reverse, length_fmap. lia.
  - intros earlier env title. rewrite addAll_snoc. reflexivity.
Qed.

(** ** Unique ids and the two views *)

Lemma toggleTodo_ids (st : TodosState) (payload : jsstring) :
  id <$> items (todosSlice.toggleTodo st payload) = id <$> items st.
Proof.
  unfold todosSlice.toggleTodo.
  destruct (list_find _ _) as [[i t]|] eqn:E; [|reflexivity].
  apply list_find_Some in E as (Hi & _ & _). simpl.
  rewrite list_fmap_insert. apply list_insert_id.
  rewrite list_lookup_fmap, Hi. reflexivity.
Qed.

Lemma NoDup_ids_filter (P : Todo → Prop) `{!∀ x, Decision (P x)}
    (l : list Todo) :
  NoDup (id <$> l) → NoDup (id <$> filter P l).
Proof.
  intros Hnd. eapply sublist_NoDup; [exact Hnd|].
  apply fmap_sublist, sublist_filter.
Qed.

Lemma NoDup_ids_dispatch (s : RootState) (a : Action) :
  NoDup (todoIds s) → nanoid_fresh s a → NoDup (todoIds (dispatch a s)).
Proof.
  unfold todoIds. rewrite dispatch_todos. intros Hs Hfresh.
  destruct a; simpl; try exact Hs.
  - apply NoDup_cons. split; [exact Hfresh | exact Hs].
  - rewrite toggleTodo_ids. exact Hs.
  - apply NoDup_ids_filter, Hs.
  - apply NoDup_nil_2.
  - apply NoDup_ids_filter, Hs.
  - apply NoDup_ids_filter, Hs.
Qed.

(** In every reachable state no two records have the same id. *)
Lemma reachable_NoDup_ids (s : RootState) : reachable s → NoDup (todoIds s).
Proof.
  induction 1 as [|s a _ IH Hfresh].
  - apply NoDup_nil_2.
  - apply NoDup_ids_dispatch; assumption.
Qed.

Lemma NoDup_ids_inj (l : list Todo) (x y : Todo) :
  NoDup (id <$> l) → x ∈ l → y ∈ l → id x = id y → x = y.
Proof.
  induction l as [|z l IH]; intros Hnd Hx Hy Hid.
  - inversion Hx.
  - rewrite fmap_cons in Hnd. apply NoDup_cons in Hnd as [Hz Hnd].
    apply elem_of_cons in Hx as [->|Hx];
      apply elem_of_cons in Hy as [->|Hy].
    + reflexivity.
    + exfalso. apply Hz. rewrite Hid. apply list_elem_of_fmap_2, Hy.
    + exfalso. apply Hz. rewrite <- Hid. apply list_elem_of_fmap_2, Hx.
    + apply IH; assumption.
Qed.

(** The union of the two views is the whole collection, in any state. *)
Lemma views_cover (s : RootState) :
  idSet (pendingItems s) ∪ idSet (completedItems s)
  = idSet (items (todos s)).
Proof.
  unfold idSet, pendingItems, completedItems. apply set_eq. intros i.
  rewrite elem_of_union, !elem_of_list_to_set, !list_elem_of_fmap.
  split.
  - intros [(x & -> & Hx)|(x & -> & Hx)];
      apply list_elem_of_filter in Hx as [_ Hx]; eauto.
  - intros (x & -> & Hx). destruct (done x) eqn:E.
    + right. exists x. split; [reflexivity|].
      apply list_elem_of_filter. auto.
    + left. exists x. split; [reflexivity|].
      apply list_elem_of_filter. auto.
Qed.

Lemma views_disjoint (s : RootState) :
  NoDup (todoIds s) → idSet (pendingItems s) ## idSet (completedItems s).
Proof.
  intros Hnd. apply elem_of_disjoint. intros i.
  unfold idSet, pendingItems, completedItems.
  rewrite !elem_of_list_to_set, !list_elem_of_fmap.
  intros (x & -> & Hx) (y & Hid & Hy).
  apply list_elem_of_filter in Hx as [Hdx Hx].
  apply list_elem_of_filter in Hy as [Hdy Hy].
  assert (x = y) by (eapply NoDup_ids_inj; eauto).
  subst y. congruence.
Qed.

(** No record is in both views, whatever the ids. *)
Lemma views_no_common_record (s : RootState) (t : Todo) :
  t ∈ pendingItems s → t ∈ completedItems s → False.
Proof.
  unfold pendingItems, completedItems.
  rewrite !list_elem_of_filter. intros [H1 _] [H2 _]. congruence.
Qed.

(** C2: in every reachable state, the ids of the pending view and the ids
    of the completed view have no id in common, and together they are the
    ids of the collection. *)
Theorem views_partition_ids (s : RootState) :
  reachable s →
  idSet (pendingItems s) ## idSet (completedItems s) ∧
  idSet (pendingItems s) ∪ idSet (completedItems s) = idSet (items (todos s)).
Proof.
  intros Hr. split.
  - apply views_disjoint, reachable_NoDup_ids, Hr.
  - apply views_cover.
Qed.

(** Without the uniqueness of ids the two views can share an id: in
    [repeatedId] the id ["a1"] is in both. *)
Lemma views_overlap_on_repeated_id :
  ¬ nanoid_fresh oneTask (addTodo env1 (u16 "Walk dog")) ∧
  ¬ idSet (pendingItems repeatedId) ## idSet (completedItems repeatedId).
Proof.
  split.
  - intros H. apply H. apply list_elem_of_In. vm_compute. left. reflexivity.
  - intros H. apply (H (u16 "a1"));
      apply elem_of_list_to_set, list_elem_of_In; vm_compute;
      left; reflexivity.
Qed.

Lemma reachable_milkDone : reachable milkDone.
Proof.
  unfold milkDone, twoTasks, oneTask.
  repeat apply reachable_dispatch; try exact reachable_init; simpl; try exact I.
  - intros H. apply list_elem_of_In in H. vm_compute in H. exact H.
  - intros H. apply list_elem_of_In in H. vm_compute in H.
    destruct H as [H|[]]. discriminate H.
Defined.

Lemma views_partition_ids_witness :
  reachable milkDone ∧
  idSet (pendingItems milkDone) ## idSet (completedItems milkDone) ∧
  idSet (pendingItems milkDone) ∪ idSet (completedItems milkDone)
  = idSet (items (todos milkDone)).
Proof.
  split; [exact reachable_milkDone|].
  exact (views_partition_ids milkDone reachable_milkDone).
Defined.

(** * Further properties of the code *)

(** ** What [trim] gives *)

Lemma trimStart_split (s : jsstring) :
  ∃ pre, blank pre ∧ s = pre ++ trimStart s.
Proof.
  induction s as [|c s (pre & Hpre & IH)]; simpl.
  - exists []. split; [constructor | reflexivity].
  - destruct (isWhiteSpace c) eqn:Hc.
    + exists (c :: pre). split; [constructor; assumption|].
      simpl. rewrite <- IH. reflexivity.
    + exists []. split; [constructor | reflexivity].
Qed.

Lemma trimStart_snoc (l : jsstring) (c : N) :
  isWhiteSpace c = false → trimStart (l ++ [c]) = trimStart l ++ [c].
Proof.
  intros Hc. induction l as [|d l IH]; simpl.
  - rewrite Hc. reflexivity.
  - destruct (isWhiteSpace d); [exact IH | reflexivity].
Qed.

Lemma trimStart_fixed (s : jsstring) :
  (∀ c, head s = Some c → isWhiteSpace c = false) → trimStart s = s.
Proof.
  destruct s as [|c r]; simpl; [reflexivity|].
  intros H. rewrite (H c eq_refl). reflexivity.
Qed.

Lemma trimStart_head_ok (s : jsstring) :
  ∀ c, head (trimStart s) = Some c → isWhiteSpace c = false.
Proof.
  intros c H. destruct (trimStart s) as [|d r] eqn:E; [discriminate|].
  injection H as ->. exact (trimStart_head s c r E).
Qed.

Lemma trim_split (s : jsstring) :
  ∃ pre post, blank pre ∧ blank post ∧ s = pre ++ trim s ++ post.
Proof.
  destruct (trimStart_split s) as (pre & Hpre & Hs).
  destruct (trimStart_split (reverse (trimStart s))) as (pre' & Hpre' & Hr).
  exists pre, (reverse pre'). split; [exact Hpre|]. split.
  - unfold blank. rewrite Forall_reverse. exact Hpre'.
  - unfold trim, trimEnd. rewrite <- reverse_app, <- Hr, reverse_involutive.
    exact Hs.
Qed.

Lemma trim_noOuterSpace (s : jsstring) : noOuterSpace (trim s).
Proof.
  unfold trim, trimEnd. split; intros c.
  - rewrite head_reverse.
    destruct (trimStart s) as [|d r] eqn:E; [discriminate|].
    pose proof (trimStart_head s d r E) as Hd.
    rewrite reverse_cons, (trimStart_snoc _ d Hd), last_snoc.
    intros [= <-]. exact Hd.
  - rewrite last_reverse. apply trimStart_head_ok.
Qed.

Lemma noOuterSpace_trim (s : jsstring) : noOuterSpace s → trim s = s.
Proof.
  intros [Hh Hl]. unfold trim, trimEnd.
  rewrite (trimStart_fixed s Hh).
  rewrite trimStart_fixed.
  - apply reverse_involutive.
  - intros c. rewrite head_reverse. apply Hl.
Qed.

Lemma trim_idempotent (s : jsstring) : trim (trim s) = trim s.
Proof. apply noOuterSpace_trim, trim_noOuterSpace. Qed.

Lemma truthy_trim_not_blank (s : jsstring) :
  truthy (trim s) = true ↔ ¬ blank s.
Proof.
  rewrite <- truthy_trim. destruct (truthy (trim s)); split; congruence.
Qed.

(** X1: [handleAdd] on a text that is not blank.  The record it creates is
    at index 0, not done, with the id and the time of the call; its title
    is the text without the white space before and after it, so it is not
    empty and has no white space at either end; the rest of the
    collection and the ui slice are as before, and the text field is
    emptied. *)
Theorem handleAdd_not_blank_spec (env : Env) (text : jsstring)
    (s : RootState) :
  ¬ blank text →
  ∃ pre post,
    blank pre ∧ blank post ∧ text = pre ++ trim text ++ post ∧
    trim text ≠ [] ∧ noOuterSpace (trim text) ∧
    (handleAdd env text s).2 = [] ∧
    items (todos (handleAdd env text s).1)
    = {| id := nanoid env; title := trim text; done := false;
         createdAt := Date_now env |} :: items (todos s) ∧
    ui (handleAdd env text s).1 = ui s.
Proof.
  intros Hnb. destruct (trim_split text) as (pre & post & Hpre & Hpost & E).
  exists pre, post. rewrite (handleAdd_not_blank env text s Hnb). simpl.
  split; [exact Hpre|]. split; [exact Hpost|]. split; [exact E|].
  split; [|split; [apply trim_noOuterSpace | repeat split]].
  intros Hnil. apply Hnb, trim_nil_blank, Hnil.
Qed.

Lemma not_blank_Buy_milk : ¬ blank (u16 "  Buy milk ").
Proof.
  intros H. apply truthy_trim in H. vm_compute in H. discriminate H.
Defined.

Lemma handleAdd_not_blank_spec_witness :
  ¬ blank (u16 "  Buy milk ") ∧
  ∃ pre post,
    blank pre ∧ blank post ∧
    u16 "  Buy milk " = pre ++ trim (u16 "  Buy milk ") ++ post ∧
    trim (u16 "  Buy milk ") ≠ [] ∧ noOuterSpace (trim (u16 "  Buy milk ")) ∧
    (handleAdd env1 (u16 "  Buy milk ") store_initialState).2 = [] ∧
    items (todos (handleAdd env1 (u16 "  Buy milk ") store_initialState).1)
    = {| id := nanoid env1; title := trim (u16 "  Buy milk "); done := false;
         createdAt := Date_now env1 |} :: items (todos store_initialState) ∧
    ui (handleAdd env1 (u16 "  Buy milk ") store_initialState).1
    = ui store_initialState.
Proof.
  split; [exact not_blank_Buy_milk|].
  exact (handleAdd_not_blank_spec env1 (u16 "  Buy milk ") store_initialState
           not_blank_Buy_milk).
Defined.

Example handleAdd_trims :
  handleAdd env1 (u16 "  Buy milk ") store_initialState = (oneTask, []).
Proof. reflexivity. Qed.

(** ** The theme flag *)

Lemma darkMode_step (s : RootState) (a : Action) :
  darkMode (ui (store_reducer s a))
  = xorb (darkMode (ui s)) (isToggleDarkMode a).
Proof.
  destruct a; simpl; try (symmetry; apply xorb_false_r).
  destruct (darkMode (ui s)); reflexivity.
Qed.

(** X2: [toggleDarkMode] dispatched twice gives back the state before, and
    after any list of actions [darkMode] is its first value when the list
    holds an even number of [toggleDarkMode], the opposite value when it
    holds an odd number; from the initial state, it is true exactly when
    that number is odd. *)
Theorem darkMode_parity :
  (∀ s, dispatch toggleDarkMode (dispatch toggleDarkMode s) = s) ∧
  (∀ actions s,
      darkMode (ui (dispatchAll actions s))
      = xorb (darkMode (ui s))
             (Nat.odd (length (List.filter isToggleDarkMode actions)))) ∧
  (∀ actions,
      darkMode (ui (dispatchAll actions store_initialState))
      = Nat.odd (length (List.filter isToggleDarkMode actions))).
Proof.
  assert (H : ∀ actions s,
      darkMode (ui (dispatchAll actions s))
      = xorb (darkMode (ui s))
             (Nat.odd (length (List.filter isToggleDarkMode actions)))).
  { unfold dispatchAll. induction actions as [|a actions IH]; intros s.
    - simpl. symmetry. apply xorb_false_r.
    - cbn [foldl List.filter]. rewrite IH, darkMode_step.
      destruct (isToggleDarkMode a).
      + cbn [length]. rewrite Nat.odd_succ, <- Nat.negb_odd.
        destruct (darkMode (ui s)), (Nat.odd _); reflexivity.
      + rewrite xorb_false_r. reflexivity. }
  split; [|split; [exact H|]].
  - intros [[d b] t]. unfold dispatch, store_reducer. simpl.
    unfold uiSlice.toggleDarkMode. simpl. rewrite negb_involutive.
    reflexivity.
  - intros actions. rewrite H. reflexivity.
Qed.

(** ** Removing *)

(** X3: [removeTodo] keeps the records whose id is not the payload, and
    only them, in the order they had; no record of the result has the
    payload as its id, whether or not one had it before; the ui slice is
    as before. *)
Theorem removeTodo_spec (s : RootState) (payload : jsstring) :
  (∀ t, t ∈ items (todos (dispatch (removeTodo payload) s))
        ↔ t ∈ items (todos s) ∧ id t ≠ payload) ∧
  sublist (items (todos (dispatch (removeTodo payload) s)))
          (items (todos s)) ∧
  (payload ∉ todoIds (dispatch (removeTodo payload) s)) ∧
  ui (dispatch (removeTodo payload) s) = ui s.
Proof.
  split; [|split; [|split; [|reflexivity]]].
  - intros t. simpl. rewrite list_elem_of_filter. tauto.
  - apply sublist_filter.
  - unfold todoIds. simpl. intros H.
    apply list_elem_of_fmap in H as (t & Ht & Hin).
    apply list_elem_of_filter in Hin as [Hne _]. congruence.
Qed.

Lemma filter_ids_absent (l : list Todo) (payload : jsstring) :
  payload ∉ id <$> l → filter (λ x, id x ≠ payload) l = l.
Proof.
  intros Hnot.
  exact (f_equal items (removeTodo_absent {| items := l |} payload Hnot)).
Qed.

(** X4: in a reachable state, removing the id of the record at an index
    deletes that one record: the result is the collection without that
    index, one record shorter. *)
Theorem removeTodo_reachable_index (s : RootState) (k : nat) (t : Todo) :
  reachable s →
  items (todos s) !! k = Some t →
  items (todos (dispatch (removeTodo (id t)) s)) = delete k (items (todos s)) ∧
  S (length (items (todos (dispatch (removeTodo (id t)) s))))
  = length (items (todos s)).
Proof.
  intros Hr Hk.
  assert (E : items (todos (dispatch (removeTodo (id t)) s))
              = delete k (items (todos s))).
  { apply reachable_NoDup_ids in Hr. unfold todoIds in Hr. simpl.
    pose proof (take_drop_middle _ _ _ Hk) as Hsplit.
    pose proof (lookup_lt_Some _ _ _ Hk) as Hlt.
    rewrite delete_take_drop.
    rewrite <- Hsplit in Hr |- * at 1.
    rewrite fmap_app, fmap_cons in Hr.
    apply NoDup_app in Hr as (_ & Hdisj & Hnd).
    apply NoDup_cons in Hnd as [Hafter _].
    rewrite filter_app, filter_cons_False by (intros H; apply H; reflexivity).
    rewrite !filter_ids_absent; [reflexivity | exact Hafter |].
    intros Hin. apply (Hdisj _ Hin). left. }
  split; [exact E|].
  rewrite E, length_delete by eauto.
  apply lookup_lt_Some in Hk. lia.
Qed.

Lemma reachable_twoTasks : reachable twoTasks.
Proof.
  unfold twoTasks, oneTask.
  repeat apply reachable_dispatch; try exact reachable_init; simpl.
  - intros H. apply list_elem_of_In in H. vm_compute in H. exact H.
  - intros H. apply list_elem_of_In in H. vm_compute in H.
    destruct H as [H|[]]. discriminate H.
Defined.

Lemma twoTasks_second :
  items (todos twoTasks) !! 1%nat
  = Some {| id := u16 "a1"; title := u16 "Buy milk"; done := false;
            createdAt := 1000 |}.
Proof. reflexivity. Defined.

Lemma removeTodo_reachable_index_witness :
  reachable twoTasks ∧
  items (todos twoTasks) !! 1%nat
  = Some {| id := u16 "a1"; title := u16 "Buy milk"; done := false;
            createdAt := 1000 |} ∧
  items (todos (dispatch (removeTodo (u16 "a1")) twoTasks))
  = delete 1%nat (items (todos twoTasks)) ∧
  S (length (items (todos (dispatch (removeTodo (u16 "a1")) twoTasks))))
  = length (items (todos twoTasks)).
Proof.
  split; [exact reachable_twoTasks|]. split; [exact twoTasks_second|].
  exact (removeTodo_reachable_index twoTasks 1%nat _ reachable_twoTasks
           twoTasks_second).
Defined.

(** X5: removing an id twice is removing it once, and two removals give
    the same state in either order. *)
Theorem removeTodo_idempotent_commute (s : RootState) (p q : jsstring) :
  dispatch (removeTodo p) (dispatch (removeTodo p) s)
  = dispatch (removeTodo p) s ∧
  dispatch (removeTodo p) (dispatch (removeTodo q) s)
  = dispatch (removeTodo q) (dispatch (removeTodo p) s).
Proof.
  split; apply RootState_eq; try reflexivity; apply TodosState_eq; simpl.
  - apply list_filter_filter_l. auto.
  - rewrite !list_filter_filter. apply list_filter_iff. tauto.
Qed.

(** X6: a record just added and then removed by its id leaves the state as
    it was before the two actions, when the id was not in the collection. *)
Theorem addTodo_removeTodo_roundtrip (env : Env) (text : jsstring)
    (s : RootState) :
  nanoid env ∉ todoIds s →
  dispatch (removeTodo (nanoid env)) (dispatch (addTodo env text) s) = s.
Proof.
  intros Hfresh. apply RootState_eq; [reflexivity|].
  apply TodosState_eq. simpl.
  rewrite filter_cons_False by (simpl; intros H; apply H; reflexivity).
  apply filter_ids_absent, Hfresh.
Qed.

Lemma fresh_b2_oneTask : u16 "b2" ∉ todoIds oneTask.
Proof.
  intros H. apply list_elem_of_In in H. vm_compute in H.
  destruct H as [H|[]]. discriminate H.
Defined.

Lemma addTodo_removeTodo_roundtrip_witness :
  (nanoid env2 ∉ todoIds oneTask) ∧
  dispatch (removeTodo (nanoid env2))
    (dispatch (addTodo env2 (u16 "Walk dog")) oneTask) = oneTask.
Proof.
  split; [exact fresh_b2_oneTask|].
  exact (addTodo_removeTodo_roundtrip env2 (u16 "Walk dog") oneTask
           fresh_b2_oneTask).
Defined.

(** ** Clearing *)

Lemma filter_not_done_idem (l : list Todo) :
  filter (λ item, done item = false) (filter (λ item, done item = false) l)
  = filter (λ item, done item = false) l.
Proof. apply list_filter_filter_l. auto. Qed.

(** X7: [clearCompleted] keeps the records whose [done] is false, and only
    them, in the order they had; with the completed records put back the
    result is the collection again, up to order; the completed view of the
    result is empty and the pending view is the one of the state before. *)
Theorem clearCompleted_spec (s : RootState) :
  (∀ t, t ∈ items (todos (dispatch clearCompleted s))
        ↔ t ∈ items (todos s) ∧ done t = false) ∧
  sublist (items (todos (dispatch clearCompleted s))) (items (todos s)) ∧
  completedItems s ++ items (todos (dispatch clearCompleted s))
  ≡ₚ items (todos s) ∧
  completedItems (dispatch clearCompleted s) = [] ∧
  pendingItems (dispatch clearCompleted s) = pendingItems s.
Proof.
  split; [|split; [|split; [|split]]].
  - intros t. simpl. rewrite list_elem_of_filter. tauto.
  - apply sublist_filter.
  - apply filter_done_complement.
  - apply filter_not_done_done.
  - apply filter_not_done_idem.
Qed.

(** X8: each of the three clear actions, dispatched a second time, changes
    nothing; and a group clear after [clearTodos], or [clearTodos] after a
    group clear, gives what [clearTodos] alone gives. *)
Theorem clear_idempotent_absorbing (s : RootState) :
  dispatch clearTodos (dispatch clearTodos s) = dispatch clearTodos s ∧
  dispatch clearPending (dispatch clearPending s) = dispatch clearPending s ∧
  dispatch clearCompleted (dispatch clearCompleted s)
  = dispatch clearCompleted s ∧
  dispatch clearPending (dispatch clearTodos s) = dispatch clearTodos s ∧
  dispatch clearCompleted (dispatch clearTodos s) = dispatch clearTodos s ∧
  dispatch clearTodos (dispatch clearPending s) = dispatch clearTodos s ∧
  dispatch clearTodos (dispatch clearCompleted s) = dispatch clearTodos s.
Proof.
  repeat split; apply RootState_eq; try reflexivity;
    apply TodosState_eq; simpl.
  - apply filter_done_idem.
  - apply filter_not_done_idem.
Qed.

(** ** What no action edits *)

Lemma toggleTodo_fields (st : TodosState) (payload : jsstring) (t' : Todo) :
  t' ∈ items (todosSlice.toggleTodo st payload) →
  ∃ t, t ∈ items st ∧
       id t' = id t ∧ title t' = title t ∧ createdAt t' = createdAt t.
Proof.
  unfold todosSlice.toggleTodo.
  destruct (list_find _ _) as [[i t]|] eqn:E; [|eauto].
  apply list_find_Some in E as (Hi & _ & _). simpl. intros Hin.
  apply list_elem_of_lookup in Hin as [j Hj].
  destruct (decide (i = j)) as [->|Hne].
  - rewrite list_lookup_insert_eq in Hj by (eapply lookup_lt_Some, Hi).
    injection Hj as <-. exists t. split; [|auto].
    eapply list_elem_of_lookup_2, Hi.
  - rewrite list_lookup_insert_ne in Hj by exact Hne.
    exists t'. split; [|auto]. eapply list_elem_of_lookup_2, Hj.
Qed.

Lemma record_origin (a : Action) (s : RootState) (t' : Todo) :
  t' ∈ items (todos (dispatch a s)) →
  a = todos_addTodo t' ∨
  ∃ t, t ∈ items (todos s) ∧
       id t' = id t ∧ title t' = title t ∧ createdAt t' = createdAt t.
Proof.
  rewrite dispatch_todos. destruct a; simpl; intros Hin.
  - right. eauto.
  - right. eauto.
  - apply elem_of_cons in Hin as [->|Hin]; [left; reflexivity | right; eauto].
  - right. eapply toggleTodo_fields, Hin.
  - right. apply list_elem_of_filter in Hin as [_ Hin]. eauto.
  - inversion Hin.
  - right. apply list_elem_of_filter in Hin as [_ Hin]. eauto.
  - right. apply list_elem_of_filter in Hin as [_ Hin]. eauto.
Qed.

(** X9: there is no edit.  Whatever the action, a record of the collection
    after it is the payload of the action, when the action is an add, or
    has the id, the title and the creation time of a record that was in
    the collection before. *)
Theorem fields_never_edited (a : Action) (s : RootState) (t' : Todo) :
  t' ∈ items (todos (dispatch a s)) →
  a = todos_addTodo t' ∨
  ∃ t, t ∈ items (todos s) ∧
       id t' = id t ∧ title t' = title t ∧ createdAt t' = createdAt t.
Proof. exact (record_origin a s t'). Qed.

Lemma milkDone_first_in :
  {| id := u16 "a1"; title := u16 "Buy milk"; done := true;
     createdAt := 1000 |} ∈ items (todos (dispatch (toggleTodo (u16 "a1")) twoTasks)).
Proof. apply list_elem_of_In. vm_compute. right. left. reflexivity. Defined.

Lemma fields_never_edited_witness :
  {| id := u16 "a1"; title := u16 "Buy milk"; done := true;
     createdAt := 1000 |} ∈ items (todos (dispatch (toggleTodo (u16 "a1")) twoTasks)) ∧
  (toggleTodo (u16 "a1")
   = todos_addTodo {| id := u16 "a1"; title := u16 "Buy milk"; done := true;
                      createdAt := 1000 |} ∨
   ∃ t, t ∈ items (todos twoTasks) ∧
        u16 "a1" = id t ∧ u16 "Buy milk" = title t ∧ 1000%Z = createdAt t).
Proof.
  split; [exact milkDone_first_in|].
  exact (fields_never_edited (toggleTodo (u16 "a1")) twoTasks _
           milkDone_first_in).
Defined.

(** ** Unique ids, by index *)

(** X10: in a reachable state two indexes that hold records with the same
    id are the same index. *)
Theorem reachable_ids_unique (s : RootState) (j k : nat) (t u : Todo) :
  reachable s →
  items (todos s) !! j = Some t →
  items (todos s) !! k = Some u →
  id t = id u →
  j = k.
Proof.
  intros Hr Hj Hk Hid. apply reachable_NoDup_ids in Hr.
  apply (NoDup_lookup (todoIds s) j k (id t) Hr); unfold todoIds;
    rewrite list_lookup_fmap.
  - rewrite Hj. reflexivity.
  - rewrite Hk, Hid. reflexivity.
Qed.

Lemma reachable_ids_unique_witness :
  reachable twoTasks ∧
  items (todos twoTasks) !! 1%nat
  = Some {| id := u16 "a1"; title := u16 "Buy milk"; done := false;
            createdAt := 1000 |} ∧
  1%nat = 1%nat.
Proof.
  split; [exact reachable_twoTasks|]. split; [exact twoTasks_second|].
  exact (reachable_ids_unique twoTasks 1%nat 1%nat _ _ reachable_twoTasks
           twoTasks_second twoTasks_second eq_refl).
Defined.

Lemma find_by_id_unique (l : list Todo) (k : nat) (t : Todo) :
  NoDup (id <$> l) → l !! k = Some t →
  list_find (λ x, id x = id t) l = Some (k, t).
Proof.
  intros Hnd Hk. apply list_find_Some. split; [exact Hk|].
  split; [reflexivity|]. intros j y Hj Hlt Hid.
  assert (j = k); [|lia].
  apply (NoDup_lookup (id <$> l) j k (id t) Hnd);
    rewrite list_lookup_fmap.
  - rewrite Hj. simpl. rewrite Hid. reflexivity.
  - rewrite Hk. reflexivity.
Qed.

Lemma toggleTodo_at_index (s : RootState) (k : nat) (t : Todo) :
  reachable s → items (todos s) !! k = Some t →
  items (todos (dispatch (toggleTodo (id t)) s))
  = <[k := todosSlice.flipDone t]> (items (todos s)).
Proof.
  intros Hr Hk. apply reachable_NoDup_ids in Hr.
  rewrite dispatch_todos. simpl. unfold todosSlice.toggleTodo.
  rewrite (find_by_id_unique _ k t Hr Hk). reflexivity.
Qed.

(** ** A toggle moves a record from one view to the other *)

Lemma filter_done_flip (b : bool) (l1 l2 : list Todo) (t : Todo) :
  done t = b →
  length (filter (λ item, done item = b) (l1 ++ t :: l2))
  = S (length (filter (λ item, done item = b)
                 (l1 ++ todosSlice.flipDone t :: l2))) ∧
  length (filter (λ item, done item = negb b)
            (l1 ++ todosSlice.flipDone t :: l2))
  = S (length (filter (λ item, done item = negb b) (l1 ++ t :: l2))) ∧
  todosSlice.flipDone t
  ∈ filter (λ item, done item = negb b) (l1 ++ todosSlice.flipDone t :: l2).
Proof.
  intros Hd. rewrite !filter_app.
  rewrite (filter_cons_True (λ item, done item = b) t) by exact Hd.
  rewrite (filter_cons_False (λ item, done item = b) (todosSlice.flipDone t))
    by (simpl; rewrite Hd; destruct b; discriminate).
  rewrite (filter_cons_False (λ item, done item = negb b) t)
    by (rewrite Hd; destruct b; discriminate).
  rewrite (filter_cons_True (λ item, done item = negb b)
             (todosSlice.flipDone t))
    by (simpl; rewrite Hd; reflexivity).
  rewrite !length_app. simpl. split; [lia|]. split; [lia|].
  apply elem_of_app. right. left.
Qed.

(** X11: in a reachable state, toggling the id of the record at an index
    replaces that record by its flipped copy and moves it between the
    views: the view it was in loses one record, the other view gains one
    and holds the flipped copy. *)
Theorem toggleTodo_moves_between_views (s : RootState) (k : nat) (t : Todo) :
  reachable s →
  items (todos s) !! k = Some t →
  items (todos (dispatch (toggleTodo (id t)) s))
  = <[k := {| id := id t; title := title t; done := negb (done t);
              createdAt := createdAt t |}]> (items (todos s)) ∧
  (done t = false →
     length (pendingItems s)
     = S (length (pendingItems (dispatch (toggleTodo (id t)) s))) ∧
     length (completedItems (dispatch (toggleTodo (id t)) s))
     = S (length (completedItems s)) ∧
     {| id := id t; title := title t; done := true;
        createdAt := createdAt t |}
     ∈ completedItems (dispatch (toggleTodo (id t)) s)) ∧
  (done t = true →
     length (completedItems s)
     = S (length (completedItems (dispatch (toggleTodo (id t)) s))) ∧
     length (pendingItems (dispatch (toggleTodo (id t)) s))
     = S (length (pendingItems s)) ∧
     {| id := id t; title := title t; done := false;
        createdAt := createdAt t |}
     ∈ pendingItems (dispatch (toggleTodo (id t)) s)).
Proof.
  intros Hr Hk. pose proof (toggleTodo_at_index s k t Hr Hk) as E.
  split; [exact E|].
  pose proof (lookup_lt_Some _ _ _ Hk) as Hlt.
  pose proof (take_drop_middle _ _ _ Hk) as Hsplit.
  rewrite (insert_take_drop _ _ _ Hlt) in E.
  unfold pendingItems, completedItems. rewrite E.
  remember (take k (items (todos s))) as l1 eqn:E1.
  remember (drop (S k) (items (todos s))) as l2 eqn:E2.
  clear E E1 E2. rewrite <- Hsplit.
  split; intros Hd.
  - pose proof (filter_done_flip false l1 l2 t Hd) as H. simpl negb in H.
    replace (mkTodo (id t) (title t) true (createdAt t))
      with (todosSlice.flipDone t)
      by (unfold todosSlice.flipDone; rewrite Hd; reflexivity).
    exact H.
  - pose proof (filter_done_flip true l1 l2 t Hd) as H. simpl negb in H.
    replace (mkTodo (id t) (title t) false (createdAt t))
      with (todosSlice.flipDone t)
      by (unfold todosSlice.flipDone; rewrite Hd; reflexivity).
    exact H.
Qed.

Lemma toggleTodo_moves_between_views_witness :
  reachable twoTasks ∧
  items (todos twoTasks) !! 1%nat
  = Some {| id := u16 "a1"; title := u16 "Buy milk"; done := false;
            createdAt := 1000 |} ∧
  length (pendingItems twoTasks)
  = S (length (pendingItems (dispatch (toggleTodo (u16 "a1")) twoTasks))) ∧
  length (completedItems (dispatch (toggleTodo (u16 "a1")) twoTasks))
  = S (length (completedItems twoTasks)).
Proof.
  split; [exact reachable_twoTasks|]. split; [exact twoTasks_second|].
  destruct (toggleTodo_moves_between_views twoTasks 1%nat _
              reachable_twoTasks twoTasks_second) as (_ & H & _).
  destruct (H eq_refl) as (H1 & H2 & _). split; [exact H1 | exact H2].
Defined.

(** ** The message of the snackbar *)

Lemma snackbar_texts_differ : u16 "Task done" ≠ u16 "Task marked undone".
Proof. discriminate. Qed.

(** X12: [handleToggle], called in a reachable state with the id and the
    [done] flag of a record of the collection, as the cards call it.  The
    snackbar is shown; the collection holds the flipped copy of the
    record; and the message is "Task done" exactly when that copy is in
    the completed view, "Task marked undone" exactly when it is in the
    pending view. *)
Theorem handleToggle_message (s : RootState) (item : Todo) :
  reachable s →
  item ∈ items (todos s) →
  snackbarVisible (handleToggle (id item) (done item) s).2 = true ∧
  todosSlice.flipDone item
  ∈ items (todos (handleToggle (id item) (done item) s).1) ∧
  (snackbarMessage (handleToggle (id item) (done item) s).2 = u16 "Task done"
   ↔ todosSlice.flipDone item
     ∈ completedItems (handleToggle (id item) (done item) s).1) ∧
  (snackbarMessage (handleToggle (id item) (done item) s).2
   = u16 "Task marked undone"
   ↔ todosSlice.flipDone item
     ∈ pendingItems (handleToggle (id item) (done item) s).1).
Proof.
  intros Hr Hin. apply list_elem_of_lookup in Hin as [k Hk].
  pose proof (toggleTodo_at_index s k item Hr Hk) as E.
  assert (Hflip : todosSlice.flipDone item
                  ∈ items (todos (dispatch (toggleTodo (id item)) s))).
  { rewrite E. eapply list_elem_of_lookup_2.
    apply list_lookup_insert_eq. eapply lookup_lt_Some, Hk. }
  unfold handleToggle, pendingItems, completedItems.
  cbn [fst snd snackbarVisible snackbarMessage].
  split; [reflexivity|]. split; [exact Hflip|].
  rewrite !list_elem_of_filter. cbn [todosSlice.flipDone done].
  pose proof snackbar_texts_differ as Hne.
  destruct (done item); simpl negb; split; split;
    try (intros [? _]); try (intros ?); try split;
    try reflexivity; try congruence; try exact Hflip.
Qed.

Lemma twoTasks_milk_in :
  {| id := u16 "a1"; title := u16 "Buy milk"; done := false;
     createdAt := 1000 |} ∈ items (todos twoTasks).
Proof. eapply list_elem_of_lookup_2. exact twoTasks_second. Defined.

Lemma handleToggle_message_witness :
  reachable twoTasks ∧
  snackbarMessage (handleToggle (u16 "a1") false twoTasks).2 = u16 "Task done" ∧
  {| id := u16 "a1"; title := u16 "Buy milk"; done := true;
     createdAt := 1000 |}
  ∈ completedItems (handleToggle (u16 "a1") false twoTasks).1.
Proof.
  split; [exact reachable_twoTasks|]. split; [reflexivity|].
  destruct (handleToggle_message twoTasks _ reachable_twoTasks
              twoTasks_milk_in) as (_ & _ & H & _).
  apply H. reflexivity.
Defined.

(** ** States reached from the screen *)

Lemma appReachable_reachable (s : RootState) : appReachable s → reachable s.
Proof.
  induction 1 as [|s a _ IH _ Hfresh].
  - apply reachable_init.
  - apply reachable_dispatch; assumption.
Qed.

Lemma appReachable_oneTask : appReachable oneTask.
Proof.
  unfold oneTask.
  change (u16 "Buy milk") with (trim (u16 "Buy milk")).
  apply appReachable_dispatch.
  - apply appReachable_init.
  - apply todosCard_add. reflexivity.
  - simpl. intros H. apply list_elem_of_In in H. exact H.
Defined.

(** X13: the titles of the collection.  When every action comes from the
    screen, each record's title is not empty, has no white space at either
    end, and is left as it is by [trim]. *)
Theorem appReachable_titles_trimmed (s : RootState) (t : Todo) :
  appReachable s →
  t ∈ items (todos s) →
  title t ≠ [] ∧ noOuterSpace (title t) ∧ trim (title t) = title t.
Proof.
  intros Hr. revert t.
  induction Hr as [|s a _ IH Hui _]; intros t Hin.
  - inversion Hin.
  - apply record_origin in Hin as [->|(t0 & Hin0 & _ & Htitle & _)].
    + inversion Hui as [|env text Htruthy Heq| | | | | |].
      simpl. split; [|split].
      * intros Hnil. rewrite Hnil in Htruthy. discriminate.
      * apply trim_noOuterSpace.
      * apply trim_idempotent.
    + rewrite Htitle. apply IH, Hin0.
Qed.

Lemma oneTask_milk_in :
  {| id := u16 "a1"; title := u16 "Buy milk"; done := false;
     createdAt := 1000 |} ∈ items (todos oneTask).
Proof. left. Defined.

Lemma appReachable_titles_trimmed_witness :
  appReachable oneTask ∧
  u16 "Buy milk" ≠ [] ∧ noOuterSpace (u16 "Buy milk") ∧
  trim (u16 "Buy milk") = u16 "Buy milk".
Proof.
  split; [exact appReachable_oneTask|].
  exact (appReachable_titles_trimmed oneTask _ appReachable_oneTask
           oneTask_milk_in).
Defined.

(** X14: the banner flag is never cleared from the screen.  No component
    dispatches [dismissBanner], so [showBanner] is true in every state
    reached from the screen. *)
Theorem appReachable_showBanner (s : RootState) :
  appReachable s → showBanner (ui s) = true.
Proof.
  induction 1 as [|s a _ IH Hui _]; [reflexivity|].
  unfold dispatch. rewrite showBanner_step, IH.
  destruct Hui; reflexivity.
Qed.

Lemma appReachable_showBanner_witness :
  appReachable oneTask ∧ showBanner (ui oneTask) = true.
Proof.
  split; [exact appReachable_oneTask|].
  exact (appReachable_showBanner oneTask appReachable_oneTask).
Defined.







(** X16: pressing Add twice adds one task at most.  [handleAdd] called
    again on the text that the first call left in the field changes
    neither the store nor the field, whatever the text was. *)
Theorem handleAdd_twice (env env' : Env) (text : jsstring) (s : RootState) :
  handleAdd env' (handleAdd env text s).2 (handleAdd env text s).1
  = handleAdd env text s.
Proof.
  unfold handleAdd at 2 3 4.
  destruct (truthy (trim text)) eqn:E; simpl.
  - reflexivity.
  - unfold handleAdd. rewrite E. reflexivity.
Qed.

(** ** The two cards *)

Lemma filter_nil_Forall (P : Todo → Prop) `{!∀ x, Decision (P x)}
    (l : list Todo) :
  filter P l = [] ↔ Forall (λ x, ¬ P x) l.
Proof.
  induction l as [|x l IH].
  - split; [constructor | reflexivity].
  - destruct (decide (P x)) as [Hx|Hx].
    + rewrite filter_cons_True by exact Hx. split; [discriminate|].
      intros Ha. apply Forall_cons_1 in Ha as [Ha _]. contradiction.
    + rewrite filter_cons_False by exact Hx. rewrite IH. split.
      * intros Ha. constructor; assumption.
      * intros Ha. apply Forall_cons_1 in Ha as [_ Ha]. exact Ha.
Qed.

Lemma PendingTasksCard_empty (width : Q) (s : RootState) :
  PendingTasksCard width s = EmptyMessage (u16 "No pending tasks")
  ↔ pendingItems s = [].
Proof.
  unfold PendingTasksCard. destruct (pendingItems s); simpl.
  - split; reflexivity.
  - split; discriminate.
Qed.

Lemma CompletedTasksCard_empty (width : Q) (s : RootState) :
  CompletedTasksCard width s = EmptyMessage (u16 "No completed tasks")
  ↔ completedItems s = [].
Proof.
  unfold CompletedTasksCard. destruct (completedItems s); simpl.
  - split; reflexivity.
  - split; discriminate.
Qed.

(** X17: what the two cards show.  The pending card shows its empty
    message exactly when every record is done, the completed card exactly
    when no record is done, and both do exactly when the collection is
    empty; a card that shows a list shows its view, which is then not
    empty; and after the Clear All action of a card, that card shows its
    empty message. *)
Theorem cards_spec (width : Q) (s : RootState) :
  (PendingTasksCard width s = EmptyMessage (u16 "No pending tasks")
   ↔ Forall (λ t, done t = true) (items (todos s))) ∧
  (CompletedTasksCard width s = EmptyMessage (u16 "No completed tasks")
   ↔ Forall (λ t, done t = false) (items (todos s))) ∧
  (PendingTasksCard width s = EmptyMessage (u16 "No pending tasks") ∧
   CompletedTasksCard width s = EmptyMessage (u16 "No completed tasks")
   ↔ items (todos s) = []) ∧
  (∀ heading columns data,
      PendingTasksCard width s = TaskList heading columns data →
      data = pendingItems s ∧ data ≠ []) ∧
  (∀ heading columns data,
      CompletedTasksCard width s = TaskList heading columns data →
      data = completedItems s ∧ data ≠ []) ∧
  PendingTasksCard width (dispatch clearPending s)
  = EmptyMessage (u16 "No pending tasks") ∧
  CompletedTasksCard width (dispatch clearCompleted s)
  = EmptyMessage (u16 "No completed tasks").
Proof.
  assert (Hp : pendingItems s = []
               ↔ Forall (λ t, done t = true) (items (todos s))).
  { unfold pendingItems. rewrite filter_nil_Forall.
    apply Forall_iff. intros t. destruct (done t); split; congruence. }
  assert (Hc : completedItems s = []
               ↔ Forall (λ t, done t = false) (items (todos s))).
  { unfold completedItems. rewrite filter_nil_Forall.
    apply Forall_iff. intros t. destruct (done t); split; congruence. }
  split; [rewrite PendingTasksCard_empty; exact Hp|].
  split; [rewrite CompletedTasksCard_empty; exact Hc|].
  split; [|split; [|split; [|split]]].
  - rewrite PendingTasksCard_empty, CompletedTasksCard_empty, Hp, Hc.
    split.
    + intros [H1 H2]. destruct (items (todos s)) as [|t l]; [reflexivity|].
      apply Forall_cons_1 in H1 as [H1 _].
      apply Forall_cons_1 in H2 as [H2 _]. congruence.
    + intros ->. split; constructor.
  - unfold PendingTasksCard. intros heading columns data.
    destruct (pendingItems s); simpl; [discriminate|].
    intros [= _ _ <-]. split; [reflexivity | discriminate].
  - unfold CompletedTasksCard. intros heading columns data.
    destruct (completedItems s); simpl; [discriminate|].
    intros [= _ _ <-]. split; [reflexivity | discriminate].
  - apply PendingTasksCard_empty. apply filter_done_not_done.
  - apply CompletedTasksCard_empty. apply filter_not_done_done.
Qed.

(** ** Layout *)

(** X18: the lists have one column or two, and two columns only on a
    width that is a tablet width. *)
Theorem numColumns_two_isTablet (width : Q) :
  (numColumns width = 1%nat ∨ numColumns width = 2%nat) ∧
  (isTablet width = false → numColumns width = 1%nat) ∧
  (numColumns width = 2%nat ↔ (900 <= width)%Q).
Proof.
  unfold numColumns, isTablet.
  destruct (Qle_bool 900 width) eqn:E.
  - apply Qle_bool_iff in E. split; [right; reflexivity|]. split.
    + intros H. exfalso.
      assert (Ht : Qle_bool 768 width = true).
      { apply Qle_bool_iff. eapply Qle_trans; [|exact E]. discriminate. }
      congruence.
    + split; [intros _; exact E | reflexivity].
  - split; [left; reflexivity|]. split; [reflexivity|].
    split; [discriminate|]. intros H. apply Qle_bool_iff in H. congruence.
Qed.

(** ** Two toggles *)

Lemma find_after_flip (l : list Todo) (j : nat) (u : Todo) (p : jsstring) :
  l !! j = Some u → id u ≠ p →
  list_find (λ x, id x = p) (<[j := todosSlice.flipDone u]> l)
  = list_find (λ x, id x = p) l.
Proof.
  intros Hj Hne.
  destruct (list_find (λ x, id x = p) l) as [[i t]|] eqn:E.
  - apply list_find_Some in E as (Hi & Hid & Hfirst).
    assert (Hij : j ≠ i) by (intros ->; congruence).
    apply list_find_Some. split; [|split; [exact Hid|]].
    + rewrite list_lookup_insert_ne by exact Hij. exact Hi.
    + intros k y Hk Hlt. destruct (decide (j = k)) as [->|Hjk].
      * rewrite list_lookup_insert_eq in Hk by (eapply lookup_lt_Some, Hj).
        injection Hk as <-. exact Hne.
      * rewrite list_lookup_insert_ne in Hk by exact Hjk.
        exact (Hfirst k y Hk Hlt).
  - apply list_find_None in E. apply list_find_None.
    apply Forall_insert; [exact E | exact Hne].
Qed.

(** X19: two toggles give the same state in either order, whatever the
    two ids and whether or not a record has them. *)
Theorem toggleTodo_commute (s : RootState) (p q : jsstring) :
  dispatch (toggleTodo p) (dispatch (toggleTodo q) s)
  = dispatch (toggleTodo q) (dispatch (toggleTodo p) s).
Proof.
  destruct (decide (p = q)) as [->|Hpq]; [reflexivity|].
  apply RootState_eq; [reflexivity|].
  rewrite !dispatch_todos. simpl. unfold todosSlice.toggleTodo.
  destruct (list_find (λ x, id x = p) (items (todos s))) as [[i t]|] eqn:Ep;
    destruct (list_find (λ x, id x = q) (items (todos s))) as [[j u]|] eqn:Eq;
    simpl; rewrite ?Ep, ?Eq; try reflexivity.
  - apply list_find_Some in Ep as Hp. destruct Hp as (Hi & Hidt & _).
    apply list_find_Some in Eq as Hq. destruct Hq as (Hj & Hidu & _).
    rewrite (find_after_flip _ j u p Hj) by congruence.
    rewrite (find_after_flip _ i t q Hi) by congruence.
    rewrite Ep, Eq. apply TodosState_eq. simpl.
    apply list_insert_insert_ne. intros ->. congruence.
  - apply list_find_Some in Ep as Hp. destruct Hp as (Hi & Hidt & _).
    rewrite (find_after_flip _ i t q Hi) by congruence.
    rewrite Eq. reflexivity.
  - apply list_find_Some in Eq as Hq. destruct Hq as (Hj & Hidu & _).
    rewrite (find_after_flip _ j u p Hj) by congruence.
    rewrite Ep. reflexivity.
Qed.
